(** * Smart Tag Event Tracker: the in-memory event store and its three handlers

    A shallow embedding of [backend/src/index.ts]: the module-level store
    ([events], [nextId]) and the handlers of [POST /api/events],
    [GET /api/events] and [GET /api/stats], followed by the properties of the
    specification that concern them.

    Conventions of the embedding.
    - A JavaScript number that only ever holds an integer is a [Z].  The
      counters of this program ([nextId], the array length, the per-key
      counts) start at 0 or 1 and grow by one, and a double represents every
      integer below 2^53 exactly; the store holds one array element per id
      handed out, which keeps the counters far below that.
    - The body of a request is what [express.json()] parsed: an object whose
      fields, when present, are JSON values.  The fields are modelled on the
      JSON primitives: null, booleans, strings, and the numbers that are
      integers a double holds exactly (these print in plain decimal).  Every
      falsy JSON value is among them.  A field that is not present reads as
      [undefined].
    - The clock reading [new Date().toISOString()] is an input of the handler.
    - A handler is a state transformer over the store that returns the
      response it sends.
    - The dashboard of [frontend/src/App.tsx], which calls the handlers, is
      embedded as far as it computes: the theme, the scale of the bar
      charts, the trend window, and the two asynchronous functions
      [loadData] and [handleSubmit], each run to completion over the state
      of the component and the store of the server, with what the network
      does to each request as an input.  Rendering, and the sparkline with
      its random jitter, are left out. *)

From Stdlib Require Import ZArith Sorted.
From stdpp Require Import gmap strings list fin_maps pretty sorting.

#[local] Open Scope Z_scope.

(* ===================================================================== *)
(** ** JavaScript values *)
(* ===================================================================== *)

(** What a field of the parsed body evaluates to, and hence what a stored
    event holds. *)
Inductive jsval : Type :=
| JUndefined
| JNull
| JBool (b : bool)
| JNum (n : Z)
| JStr (s : string).

#[global] Instance jsval_eq_dec : EqDecision jsval.
Proof. solve_decision. Defined.

(** [ToBoolean] *)
Definition to_boolean (v : jsval) : bool :=
  match v with
  | JUndefined => false
  | JNull => false
  | JBool b => b
  | JNum n => negb (n =? 0)
  | JStr s => negb (String.eqb s "")
  end.

(** [ToPropertyKey]: the string under which [o[v]] reads and writes. *)
Definition to_property_key (v : jsval) : string :=
  match v with
  | JUndefined => "undefined"
  | JNull => "null"
  | JBool true => "true"
  | JBool false => "false"
  | JNum n => pretty n
  | JStr s => s
  end.

(** [new Set(iterable)]: insertion-ordered, one entry per value
    ([SameValueZero] is equality on these primitives). *)
Definition Set_add (acc : list jsval) (v : jsval) : list jsval :=
  if bool_decide (v ∈ acc) then acc else acc ++ [v].

Definition new_Set (l : list jsval) : list jsval := fold_left Set_add l [].

(* ===================================================================== *)
(** ** Objects used as counting tables *)
(* ===================================================================== *)

(** What the stats loop stores under a key: a number, or a string once the
    [+] has concatenated. *)
Inductive cell : Type :=
| Number (n : Z)
| Text (s : string).

#[global] Instance cell_eq_dec : EqDecision cell.
Proof. solve_decision. Defined.

(** The own properties of [Object.prototype] that hold a built-in function,
    each with the name of that function. *)
Definition Object_prototype_methods : list (string * string) :=
  [ ("constructor", "Object");
    ("__defineGetter__", "__defineGetter__");
    ("__defineSetter__", "__defineSetter__");
    ("hasOwnProperty", "hasOwnProperty");
    ("__lookupGetter__", "__lookupGetter__");
    ("__lookupSetter__", "__lookupSetter__");
    ("isPrototypeOf", "isPrototypeOf");
    ("propertyIsEnumerable", "propertyIsEnumerable");
    ("toString", "toString");
    ("valueOf", "valueOf");
    ("toLocaleString", "toLocaleString") ].

Fixpoint assoc (k : string) (l : list (string * string)) : option string :=
  match l with
  | [] => None
  | (k', v) :: l' => if String.eqb k k' then Some v else assoc k l'
  end.

(** The result of the read [o[k]] on an object created by [{}]. *)
Inductive read : Type :=
| Own (c : cell)              (* an own property of the table *)
| Builtin (fname : string)    (* a function inherited from Object.prototype *)
| Proto                       (* the [__proto__] getter: Object.prototype *)
| Undefined.

Definition prop_get (o : gmap string cell) (k : string) : read :=
  match o !! k with
  | Some c => Own c
  | None =>
      if String.eqb k "__proto__" then Proto
      else match assoc k Object_prototype_methods with
           | Some f => Builtin f
           | None => Undefined
           end
  end.

(** [Function.prototype.toString] of a built-in, as Node prints it. *)
Definition native_source (fname : string) : string :=
  "function " +:+ fname +:+ "() { [native code] }".

(** [(x || 0) + 1] for [x] the result of a read.  A falsy [x] gives way to
    [0]; a string operand, or an object (whose primitive is its string form),
    turns [+] into concatenation with ["1"]. *)
Definition or_zero_plus_one (x : read) : cell :=
  match x with
  | Undefined => Number (0 + 1)
  | Own (Number n) => if n =? 0 then Number (0 + 1) else Number (n + 1)
  | Own (Text s) => if String.eqb s "" then Number (0 + 1) else Text (s +:+ "1")
  | Builtin f => Text (native_source f +:+ "1")
  | Proto => Text ("[object Object]" +:+ "1")
  end.

(** The write [o[k] = c].  On [__proto__] it reaches the inherited setter,
    which ignores a value that is neither an object nor null; on any other
    key it creates or overwrites an own property. *)
Definition prop_set (o : gmap string cell) (k : string) (c : cell)
  : gmap string cell :=
  if String.eqb k "__proto__" then o else <[k := c]> o.

(** [o[k] = (o[k] || 0) + 1] *)
Definition count_up (o : gmap string cell) (k : string) : gmap string cell :=
  prop_set o k (or_zero_plus_one (prop_get o k)).

(* ===================================================================== *)
(** ** Data model *)
(* ===================================================================== *)

Record TagEvent : Type := {
  id : Z;
  tagId : jsval;
  source : jsval;
  type : jsval;
  createdAt : string
}.

#[global] Instance TagEvent_eq_dec : EqDecision TagEvent.
Proof. solve_decision. Defined.

(** The module-level variables [events] and [nextId]. *)
Record Store : Type := {
  events : list TagEvent;
  nextId : Z
}.

(** The store when the process starts. *)
Definition initial : Store := {| events := []; nextId := 1 |}.

(** [req.body] as the create handler destructures it. *)
Record Body : Type := {
  body_tagId : jsval;
  body_source : jsval;
  body_type : jsval
}.

Record Stats : Type := {
  totalEvents : Z;
  uniqueTags : Z;
  eventsByType : gmap string cell;
  eventsBySource : gmap string cell
}.

(** What [res.json] serialises. *)
Inductive payload : Type :=
| Message (message : string)
| Created (e : TagEvent)
| EventList (l : list TagEvent)
| StatsReport (s : Stats).

Record Response : Type := {
  status : Z;
  body : payload
}.

(* ===================================================================== *)
(** ** Handlers as state transformers *)
(* ===================================================================== *)

Definition Handler (A : Type) : Type := Store -> A * Store.

Definition ret {A} (a : A) : Handler A := fun s => (a, s).

Definition bind {A B} (m : Handler A) (k : A -> Handler B) : Handler B :=
  fun s => let (a, s') := m s in k a s'.

Notation "x <~ m ;; k" := (bind m (fun x => k))
  (at level 100, m at next level, right associativity).
Notation "m ;;; k" := (bind m (fun _ => k))
  (at level 100, right associativity).

(** [nextId++]: yields the old value and stores the successor. *)
Definition nextId_post_increment : Handler Z :=
  fun s => (nextId s, {| events := events s; nextId := nextId s + 1 |}).

(** [events.unshift(e)] *)
Definition events_unshift (e : TagEvent) : Handler unit :=
  fun s => (tt, {| events := e :: events s; nextId := nextId s |}).

(** A read of the variable [events]. *)
Definition read_events : Handler (list TagEvent) :=
  fun s => (events s, s).

(** [res.status(c).json(p)]; [res.json(p)] alone answers 200. *)
Definition json (c : Z) (p : payload) : Response := {| status := c; body := p |}.

(** POST /api/events *)
Definition post_events (now : string) (b : Body) : Handler Response :=
  let tagId := body_tagId b in
  let source := body_source b in
  let type := body_type b in
  if negb (to_boolean tagId) || negb (to_boolean source) || negb (to_boolean type)
  then ret (json 400 (Message "tagId, source and type are required"))
  else
    n <~ nextId_post_increment ;;
    let event := {| id := n; tagId := tagId; source := source;
                    type := type; createdAt := now |} in
    events_unshift event ;;;
    ret (json 201 (Created event)).

(** GET /api/events *)
Definition get_events : Handler Response :=
  evs <~ read_events ;;
  ret (json 200 (EventList evs)).

(** The body of the stats handler over the array it read. *)
Definition computeStats (evs : list TagEvent) : Stats :=
  let totalEvents := Z.of_nat (length evs) in
  let uniqueTags := Z.of_nat (length (new_Set (map tagId evs))) in
  let tables :=
    fold_left
      (fun (t : gmap string cell * gmap string cell) e =>
         (count_up (fst t) (to_property_key (type e)),
          count_up (snd t) (to_property_key (source e))))
      evs (∅, ∅) in
  {| totalEvents := totalEvents;
     uniqueTags := uniqueTags;
     eventsByType := fst tables;
     eventsBySource := snd tables |}.

(** GET /api/stats *)
Definition get_stats : Handler Response :=
  evs <~ read_events ;;
  ret (json 200 (StatsReport (computeStats evs))).

(* ===================================================================== *)
(** ** Requests and runs *)
(* ===================================================================== *)

Inductive request : Type :=
| POST_events (now : string) (b : Body)
| GET_events
| GET_stats.

Definition handle (r : request) : Handler Response :=
  match r with
  | POST_events now b => post_events now b
  | GET_events => get_events
  | GET_stats => get_stats
  end.

(** The server processes requests one after the other; a run returns the
    responses in order and the store it ends in. *)
Fixpoint run (rs : list request) : Handler (list Response) :=
  match rs with
  | [] => ret []
  | r :: rs' =>
      x <~ handle r ;;
      xs <~ run rs' ;;
      ret (x :: xs)
  end.

(* ===================================================================== *)
(** ** Vocabulary of the specification *)
(* ===================================================================== *)

(** The three fields pass the guard of the create handler. *)
Definition accepted (b : Body) : bool :=
  to_boolean (body_tagId b) && to_boolean (body_source b) && to_boolean (body_type b).

(** A field the specification calls empty or absent. *)
Definition empty_or_absent (v : jsval) : Prop := v = JUndefined \/ v = JStr "".

(** The record the create handler builds from a body, a clock reading and
    the counter. *)
Definition event_of (now : string) (b : Body) (n : Z) : TagEvent :=
  {| id := n; tagId := body_tagId b; source := body_source b;
     type := body_type b; createdAt := now |}.

(** The request is a create that passes validation. *)
Definition creates (r : request) : bool :=
  match r with
  | POST_events _ b => accepted b
  | GET_events | GET_stats => false
  end.

(** The request is one of the two reads. *)
Definition is_read (r : request) : bool :=
  match r with
  | POST_events _ _ => false
  | GET_events | GET_stats => true
  end.

(** Number of successful appends among the requests. *)
Definition appends (rs : list request) : nat := length (filter (fun r => creates r = true) rs).

(** The event a response carries when it reports a creation. *)
Definition created (r : Response) : option TagEvent :=
  match body r with
  | Created e => Some e
  | _ => None
  end.

Definition created_events (xs : list Response) : list TagEvent := omap created xs.

(** Stores the server can be in: the initial one, and any store a handler
    leaves behind. *)
Inductive reachable : Store -> Prop :=
| reachable_initial : reachable initial
| reachable_handle r s : reachable s -> reachable (snd (handle r s)).

(** The ids of the [n] stored events count down from [n] to 1. *)
Definition countdown (n : nat) : list Z :=
  (fun i => Z.of_nat n - Z.of_nat i) <$> seq 0 n.

(** Strictly decreasing along the list. *)
Definition strictly_decreasing (l : list Z) : Prop :=
  StronglySorted (fun a b => b < a) l.

(** Occurrences of a key among the keys fed to a counting table. *)
Definition occurrences (k : string) (keys : list string) : nat :=
  length (filter (fun k' => k' = k) keys).

(** [t] is the frequency table of [keys]: every key that occurs is mapped to
    the number of its occurrences, and no other key is present. *)
Definition frequency_table (t : gmap string cell) (keys : list string) : Prop :=
  forall k, t !! k = match occurrences k keys with
                     | O => None
                     | S n => Some (Number (Z.of_nat (S n)))
                     end.

(** The keys [{}] inherits from [Object.prototype]. *)
Definition inherited (k : string) : bool :=
  String.eqb k "__proto__" || bool_decide (is_Some (assoc k Object_prototype_methods)).

(** [n] times the character 1. *)
Fixpoint ones (n : nat) : string :=
  match n with
  | O => ""
  | S n' => ones n' +:+ "1"
  end.

(** The cell the counting loop leaves under key [k] once [k] has come up [n]
    times. *)
Definition cell_after (k : string) (n : nat) : option cell :=
  match n with
  | O => None
  | S _ =>
      if String.eqb k "__proto__" then None
      else match assoc k Object_prototype_methods with
           | Some f => Some (Text (native_source f +:+ ones n))
           | None => Some (Number (Z.of_nat n))
           end
  end.

(** The keys under which the two tables count. *)
Definition type_keys (evs : list TagEvent) : list string :=
  (fun e => to_property_key (type e)) <$> evs.

Definition source_keys (evs : list TagEvent) : list string :=
  (fun e => to_property_key (source e)) <$> evs.

(** The sum of the numeric counts of a table; a cell that holds a string
    contributes nothing. *)
Definition count_of (c : cell) : Z :=
  match c with
  | Number n => n
  | Text _ => 0
  end.

Definition sum_counts (t : gmap string cell) : Z :=
  map_fold (fun _ c acc => count_of c + acc) 0 t.

(** Every cell of the table is a number that is at least 1. *)
Definition counts_positive (t : gmap string cell) : Prop :=
  forall k c, t !! k = Some c -> exists n, c = Number n /\ 1 <= n.

(* ===================================================================== *)
(** ** The dashboard: theme *)
(* ===================================================================== *)

(** The dashboard of [frontend/src/App.tsx] is the caller of the three
    handlers.  Its theme is a string: the cast of the stored value to
    ["light" | "dark" | null] is not checked at run time. *)

(** [getPreferredTheme], over what it reads: whether [window] exists, the
    result of [localStorage.getItem("theme")] ([None] is null) and whether
    the media query for a light colour scheme matches.  [||] gives way on
    null and on the empty string. *)
Definition getPreferredTheme (has_window : bool) (stored : option string)
    (prefers_light : bool) : string :=
  if negb has_window then "dark"
  else
    match stored with
    | Some t =>
        if String.eqb t "" then (if prefers_light then "light" else "dark") else t
    | None => if prefers_light then "light" else "dark"
    end.

(** The updater of [toggleTheme]. *)
Definition toggleTheme (prev : string) : string :=
  if String.eqb prev "dark" then "light" else "dark".

(** The storing part of the theme effect: [localStorage.setItem("theme",
    theme)] when [window] exists; [localStorage] is a map from keys to
    strings. *)
Definition persist_theme (has_window : bool) (theme : string)
    (storage : gmap string string) : gmap string string :=
  if has_window then <["theme" := theme]> storage else storage.

(* ===================================================================== *)
(** ** The dashboard: charts and trend *)
(* ===================================================================== *)


(** [array.slice(-n)]: the last [n] elements, all of them when there are
    fewer. *)
Definition slice_last {A} (n : nat) (l : list A) : list A :=
  drop (length l - n) l.

Section Trend.
(** [new Date(s).getTime()]: the milliseconds of a timestamp, [None] for a
    string [Date] does not parse (NaN). *)
Variable getTime : string -> option Z.

(** The comparator [(a, b) => time(a) - time(b)]; a NaN result counts as
    0 for [sort]. *)
Definition compare_createdAt (a b : TagEvent) : Z :=
  match getTime (createdAt a), getTime (createdAt b) with
  | Some ta, Some tb => ta - tb
  | _, _ => 0
  end.

(** [Array.prototype.sort] is stable: an element moves behind another
    only when the comparator says it comes after.  With timestamps that
    all parse the comparator is a total preorder and the sorted array is
    this one; with a timestamp that does not parse the order is left to
    the engine, and the properties on order below assume none. *)
Fixpoint insert_by_time (a : TagEvent) (l : list TagEvent) : list TagEvent :=
  match l with
  | [] => [a]
  | b :: l' =>
      if 0 <? compare_createdAt a b then b :: insert_by_time a l'
      else a :: b :: l'
  end.

Definition sort_by_time (l : list TagEvent) : list TagEvent :=
  fold_right insert_by_time [] l.

(** [trendEvents]: a sorted copy of the events, cut to its last 12. *)
Definition trendEvents (evs : list TagEvent) : list TagEvent :=
  let ordered := sort_by_time evs in
  slice_last 12 ordered.

(** The status pill of the trend panel. *)
Definition status_pill (evs : list TagEvent) : string :=
  let n := length (trendEvents evs) in
  if (n =? 0)%nat then "Idle" else pretty n +:+ " samples".
End Trend.

(** The first event is not later than the second, both timestamps parsing. *)
Definition time_le (getTime : string -> option Z) (a b : TagEvent) : Prop :=
  match getTime (createdAt a), getTime (createdAt b) with
  | Some ta, Some tb => ta <= tb
  | _, _ => False
  end.

(** The first event is strictly later than the second. *)
Definition time_gt (getTime : string -> option Z) (a b : TagEvent) : Prop :=
  match getTime (createdAt a), getTime (createdAt b) with
  | Some ta, Some tb => tb < ta
  | _, _ => False
  end.

(** [Date] on the three timestamps the examples use. *)
Definition getTime_sample (s : string) : option Z :=
  if String.eqb s "2024-05-01T10:00:00.000Z" then Some 1714557600000
  else if String.eqb s "2024-05-01T10:00:01.000Z" then Some 1714557601000
  else if String.eqb s "2024-05-01T10:00:02.000Z" then Some 1714557602000
  else None.

(* ===================================================================== *)
(** ** The dashboard: loading and submitting *)
(* ===================================================================== *)

(** The state of the component that the two asynchronous functions read
    and set. *)
Record UI : Type := {
  ui_tagId : string;
  ui_source : string;
  ui_type : string;
  ui_events : list TagEvent;
  ui_stats : option Stats;
  ui_loading : bool;
  ui_isFetching : bool;
  ui_error : option string
}.

(** The state the component mounts with. *)
Definition UI_initial : UI :=
  {| ui_tagId := ""; ui_source := ""; ui_type := "check-in"; ui_events := [];
     ui_stats := None; ui_loading := false; ui_isFetching := true;
     ui_error := None |}.

Definition setTagId (v : string) (u : UI) : UI :=
  {| ui_tagId := v; ui_source := ui_source u; ui_type := ui_type u;
     ui_events := ui_events u; ui_stats := ui_stats u;
     ui_loading := ui_loading u; ui_isFetching := ui_isFetching u;
     ui_error := ui_error u |}.

Definition setSource (v : string) (u : UI) : UI :=
  {| ui_tagId := ui_tagId u; ui_source := v; ui_type := ui_type u;
     ui_events := ui_events u; ui_stats := ui_stats u;
     ui_loading := ui_loading u; ui_isFetching := ui_isFetching u;
     ui_error := ui_error u |}.

Definition setType (v : string) (u : UI) : UI :=
  {| ui_tagId := ui_tagId u; ui_source := ui_source u; ui_type := v;
     ui_events := ui_events u; ui_stats := ui_stats u;
     ui_loading := ui_loading u; ui_isFetching := ui_isFetching u;
     ui_error := ui_error u |}.

Definition setEvents (v : list TagEvent) (u : UI) : UI :=
  {| ui_tagId := ui_tagId u; ui_source := ui_source u; ui_type := ui_type u;
     ui_events := v; ui_stats := ui_stats u;
     ui_loading := ui_loading u; ui_isFetching := ui_isFetching u;
     ui_error := ui_error u |}.

Definition setStats (v : option Stats) (u : UI) : UI :=
  {| ui_tagId := ui_tagId u; ui_source := ui_source u; ui_type := ui_type u;
     ui_events := ui_events u; ui_stats := v;
     ui_loading := ui_loading u; ui_isFetching := ui_isFetching u;
     ui_error := ui_error u |}.

Definition setLoading (v : bool) (u : UI) : UI :=
  {| ui_tagId := ui_tagId u; ui_source := ui_source u; ui_type := ui_type u;
     ui_events := ui_events u; ui_stats := ui_stats u;
     ui_loading := v; ui_isFetching := ui_isFetching u;
     ui_error := ui_error u |}.

Definition setIsFetching (v : bool) (u : UI) : UI :=
  {| ui_tagId := ui_tagId u; ui_source := ui_source u; ui_type := ui_type u;
     ui_events := ui_events u; ui_stats := ui_stats u;
     ui_loading := ui_loading u; ui_isFetching := v;
     ui_error := ui_error u |}.

Definition setError (v : option string) (u : UI) : UI :=
  {| ui_tagId := ui_tagId u; ui_source := ui_source u; ui_type := ui_type u;
     ui_events := ui_events u; ui_stats := ui_stats u;
     ui_loading := ui_loading u; ui_isFetching := ui_isFetching u;
     ui_error := v |}.

(** What the network does with one [fetch]: the request never reaches the
    server, or the server handles it and the reply is lost, or the reply
    arrives.  In the first two cases the promise rejects. *)
Inductive delivery : Type :=
| NotSent
| ReplyLost
| Delivered.

(** [fetch] against the server: the reply, if one arrives, and the store
    the server is left in. *)
Definition fetch (d : delivery) (r : request) (srv : Store)
  : option Response * Store :=
  match d with
  | NotSent => (None, srv)
  | ReplyLost => (None, snd (handle r srv))
  | Delivered => (Some (fst (handle r srv)), snd (handle r srv))
  end.

(** [res.ok]: the status is in the range 200 to 299. *)
Definition res_ok (r : Response) : bool :=
  (200 <=? status r) && (status r <=? 299).

(** [await res.json()] as the state setters take it.  The payload of a
    reply is what its handler sent: a list for the events, a report for the
    stats. *)
Definition events_of (p : payload) : list TagEvent :=
  match p with
  | EventList l => l
  | _ => []
  end.

Definition stats_of (p : payload) : option Stats :=
  match p with
  | StatsReport st => Some st
  | _ => None
  end.

(** [loadData], run to completion over the state of the component and the
    store of the server.  [Promise.all] sends both requests; a rejected
    promise and a reply that is not ok both end in the [catch]. *)
Definition loadData (d_events d_stats : delivery) (w : UI * Store) : UI * Store :=
  let (u, srv) := w in
  let u := setError None u in
  let u := setIsFetching true u in
  let (eventsRes, srv) := fetch d_events GET_events srv in
  let (statsRes, srv) := fetch d_stats GET_stats srv in
  let u :=
    match eventsRes, statsRes with
    | Some eventsRes, Some statsRes =>
        if negb (res_ok eventsRes) || negb (res_ok statsRes)
        then setError (Some "Could not load data from server.") u
        else
          let u := setEvents (events_of (body eventsRes)) u in
          setStats (stats_of (body statsRes)) u
    | _, _ => setError (Some "Could not load data from server.") u
    end in
  (setIsFetching false u, srv).

(** [handleSubmit], run to completion; [now] is the clock of the server
    when the create arrives.  [loadData] catches its own failures, so the
    [catch] here is reached from the create alone. *)
Definition handleSubmit (now : string) (d_post d_events d_stats : delivery)
    (w : UI * Store) : UI * Store :=
  let (u, srv) := w in
  let tagId := ui_tagId u in
  let source := ui_source u in
  let type := ui_type u in
  if negb (to_boolean (JStr tagId)) || negb (to_boolean (JStr source))
     || negb (to_boolean (JStr type))
  then w
  else
    let u := setLoading true u in
    let u := setError None u in
    let (res, srv) :=
      fetch d_post
        (POST_events now {| body_tagId := JStr tagId; body_source := JStr source;
                            body_type := JStr type |}) srv in
    let (u, srv) :=
      match res with
      | Some res =>
          if negb (res_ok res)
          then (setError (Some "Could not save event.") u, srv)
          else
            let u := setTagId "" u in
            let u := setSource "" u in
            let u := setType "check-in" u in
            loadData d_events d_stats (u, srv)
      | None => (setError (Some "Could not save event.") u, srv)
      end in
    (setLoading false u, srv).

(** The form of the component passes its own guard. *)
Definition form_filled (u : UI) : bool :=
  to_boolean (JStr (ui_tagId u)) && to_boolean (JStr (ui_source u))
  && to_boolean (JStr (ui_type u)).

(** The body the form is sent as. *)
Definition form_body (u : UI) : Body :=
  {| body_tagId := JStr (ui_tagId u); body_source := JStr (ui_source u);
     body_type := JStr (ui_type u) |}.

(* ===================================================================== *)
(** ** The handlers, step by step *)
(* ===================================================================== *)

Lemma accepted_false_iff b :
  accepted b = false <->
  to_boolean (body_tagId b) = false \/ to_boolean (body_source b) = false
  \/ to_boolean (body_type b) = false.
Proof.
  unfold accepted.
  destruct (to_boolean (body_tagId b)), (to_boolean (body_source b)),
    (to_boolean (body_type b)); simpl; intuition congruence.
Qed.

(** The falsy values: undefined, null, false, 0 and the empty string. *)
Lemma to_boolean_false_iff v :
  to_boolean v = false <->
  v = JUndefined \/ v = JNull \/ v = JBool false \/ v = JNum 0 \/ v = JStr "".
Proof.
  split.
  - destruct v as [| | [|] | n | s]; simpl; intros H; try discriminate; auto.
    + apply negb_false_iff, Z.eqb_eq in H. subst. auto.
    + apply negb_false_iff, String.eqb_eq in H. subst. auto 6.
  - intros [-> | [-> | [-> | [-> | ->]]]]; reflexivity.
Qed.

Lemma empty_or_absent_falsy v : empty_or_absent v -> to_boolean v = false.
Proof. intros [-> | ->]; reflexivity. Qed.

(** The create handler in one equation. *)
Lemma post_events_eq now b s :
  post_events now b s =
  if accepted b
  then (json 201 (Created (event_of now b (nextId s))),
        {| events := event_of now b (nextId s) :: events s;
           nextId := nextId s + 1 |})
  else (json 400 (Message "tagId, source and type are required"), s).
Proof.
  unfold post_events, accepted.
  destruct (to_boolean (body_tagId b)), (to_boolean (body_source b)),
    (to_boolean (body_type b)); reflexivity.
Qed.

(** Case analysis on the guard of the create handler. *)
Ltac guard_cases b := rewrite ?post_events_eq; destruct (accepted b) eqn:?.

Lemma get_events_eq s : get_events s = (json 200 (EventList (events s)), s).
Proof. reflexivity. Qed.

Lemma get_stats_eq s :
  get_stats s = (json 200 (StatsReport (computeStats (events s))), s).
Proof. reflexivity. Qed.

Lemma handle_store r s :
  snd (handle r s) =
  match r with
  | POST_events now b =>
      if accepted b
      then {| events := event_of now b (nextId s) :: events s;
              nextId := nextId s + 1 |}
      else s
  | _ => s
  end.
Proof.
  destruct r as [now b | |]; simpl; try reflexivity.
  guard_cases b; reflexivity.
Qed.

Lemma handle_not_creates r s : creates r = false -> snd (handle r s) = s.
Proof.
  intros H. rewrite handle_store. destruct r; simpl in *; try reflexivity.
  rewrite H. reflexivity.
Qed.

Lemma handle_created r s :
  created (fst (handle r s)) =
  match r with
  | POST_events now b =>
      if accepted b then Some (event_of now b (nextId s)) else None
  | _ => None
  end.
Proof.
  destruct r as [now b | |]; simpl; try reflexivity.
  guard_cases b; reflexivity.
Qed.

Lemma run_cons r rs s :
  run (r :: rs) s =
  (fst (handle r s) :: fst (run rs (snd (handle r s))),
   snd (run rs (snd (handle r s)))).
Proof.
  simpl. unfold bind, ret.
  destruct (handle r s) as [x s1]. simpl.
  destruct (run rs s1) as [xs s2]. reflexivity.
Qed.

Lemma run_nil s : run [] s = ([], s).
Proof. reflexivity. Qed.

Lemma run_app rs1 rs2 s :
  run (rs1 ++ rs2) s =
  (fst (run rs1 s) ++ fst (run rs2 (snd (run rs1 s))),
   snd (run rs2 (snd (run rs1 s)))).
Proof.
  revert s. induction rs1 as [| r rs1 IH]; intros s.
  - rewrite run_nil. simpl. destruct (run rs2 s); reflexivity.
  - rewrite <- app_comm_cons, !run_cons, IH. reflexivity.
Qed.

Lemma appends_nil : appends [] = 0%nat.
Proof. reflexivity. Qed.

Lemma appends_cons r rs :
  appends (r :: rs) = if creates r then S (appends rs) else appends rs.
Proof.
  unfold appends. rewrite filter_cons.
  destruct (creates r); destruct (decide _); simpl; congruence.
Qed.

Lemma reachable_run rs s : reachable s -> reachable (snd (run rs s)).
Proof.
  revert s. induction rs as [| r rs IH]; intros s Hs.
  - exact Hs.
  - rewrite run_cons. simpl. apply IH. constructor. exact Hs.
Qed.

(* ===================================================================== *)
(** ** Validation of a create *)
(* ===================================================================== *)

(** C2. A create in which any of tagId, source or type is empty or absent is
    answered with status 400 and a message, and leaves the store (the event
    sequence and the id counter) as it was: no id is consumed and no event
    is appended. *)
Theorem create_missing_field_rejected now b s :
  empty_or_absent (body_tagId b) \/ empty_or_absent (body_source b)
  \/ empty_or_absent (body_type b) ->
  exists m,
    post_events now b s = (json 400 (Message m), s)
    /\ events (snd (post_events now b s)) = events s
    /\ nextId (snd (post_events now b s)) = nextId s.
Proof.
  intros H.
  assert (Hrej : accepted b = false).
  { apply accepted_false_iff.
    destruct H as [H | [H | H]]; apply empty_or_absent_falsy in H; auto. }
  rewrite post_events_eq, Hrej. eexists. repeat split.
Qed.

Lemma create_missing_field_rejected_witness :
  let b := {| body_tagId := JStr "tag-1"; body_source := JUndefined;
              body_type := JStr "" |} in
  exists m,
    post_events "2024-05-01T10:00:00.000Z" b initial = (json 400 (Message m), initial)
    /\ events (snd (post_events "2024-05-01T10:00:00.000Z" b initial)) = events initial
    /\ nextId (snd (post_events "2024-05-01T10:00:00.000Z" b initial)) = nextId initial.
Proof.
  apply (create_missing_field_rejected "2024-05-01T10:00:00.000Z"
           {| body_tagId := JStr "tag-1"; body_source := JUndefined;
              body_type := JStr "" |} initial).
  right. left. left. reflexivity.
Defined.

(** C8. The create handler answers 400 exactly when one of tagId, source and
    type is absent or falsy; otherwise it answers 201 with an event that
    carries the three values as they came.  Only truthiness is tested: a
    string of one blank is truthy, and an event is created from it. *)
Theorem create_rejects_iff_falsy now b s :
  let answer := fst (post_events now b s) in
  (status answer = 400 <->
     to_boolean (body_tagId b) = false \/ to_boolean (body_source b) = false
     \/ to_boolean (body_type b) = false)
  /\ (status answer = 201 <->
        to_boolean (body_tagId b) = true /\ to_boolean (body_source b) = true
        /\ to_boolean (body_type b) = true)
  /\ (status answer = 201 <->
        exists e, body answer = Created e /\ tagId e = body_tagId b
                  /\ source e = body_source b /\ type e = body_type b)
  /\ to_boolean (JStr " ") = true
  /\ fst (post_events now {| body_tagId := JStr " "; body_source := JStr " ";
                             body_type := JStr " " |} s)
     = json 201 (Created {| id := nextId s; tagId := JStr " "; source := JStr " ";
                            type := JStr " "; createdAt := now |}).
Proof.
  cbv zeta. rewrite <- accepted_false_iff, !post_events_eq.
  split; [| split; [| split; [| split]]]; try reflexivity.
  - destruct (accepted b); simpl; split; congruence.
  - unfold accepted.
    destruct (to_boolean (body_tagId b)), (to_boolean (body_source b)),
      (to_boolean (body_type b)); simpl; intuition congruence.
  - destruct (accepted b); simpl; split.
    + intros _. eexists. repeat split.
    + reflexivity.
    + discriminate.
    + intros (e & He & _). discriminate.
Qed.

(* ===================================================================== *)
(** ** Runs of the server *)
(* ===================================================================== *)

Lemma created_events_cons x xs :
  created_events (x :: xs) =
  match created x with
  | Some e => e :: created_events xs
  | None => created_events xs
  end.
Proof. reflexivity. Qed.

Lemma fmap_seq_shift (f : nat -> Z) j n :
  f <$> seq (S j) n = (fun i => f (S i)) <$> seq j n.
Proof. rewrite <- fmap_S_seq, <- list_fmap_compose. reflexivity. Qed.

(** What a run does to the counter and to the array, and which ids it hands
    out, in terms of the store it starts from. *)
Lemma run_spec rs s :
  nextId (snd (run rs s)) = nextId s + Z.of_nat (appends rs)
  /\ id <$> created_events (fst (run rs s))
     = (fun i => nextId s + Z.of_nat i) <$> seq 0 (appends rs)
  /\ events (snd (run rs s)) = reverse (created_events (fst (run rs s))) ++ events s.
Proof.
  revert s. induction rs as [| r rs IH]; intros s.
  - rewrite run_nil, appends_nil. simpl. repeat split. lia.
  - rewrite run_cons, appends_cons. simpl fst; simpl snd.
    rewrite created_events_cons, handle_created.
    destruct (IH (snd (handle r s))) as (IHn & IHi & IHe).
    rewrite IHn, IHe, handle_store.
    destruct r as [now b | |]; simpl creates; [destruct (accepted b) eqn:Hb |..];
      simpl nextId; simpl events.
    + rewrite handle_store, Hb in IHi. simpl nextId in IHi.
      repeat split.
      * lia.
      * rewrite fmap_cons, IHi. simpl seq. rewrite fmap_cons, fmap_seq_shift.
        f_equal; [simpl; lia |].
        apply list_fmap_ext. intros _ i _. lia.
      * rewrite reverse_cons, <- app_assoc. reflexivity.
    + rewrite handle_store, Hb in IHi. auto.
    + rewrite handle_store in IHi. auto.
    + rewrite handle_store in IHi. auto.
Qed.

Lemma length_created_events rs s :
  length (created_events (fst (run rs s))) = appends rs.
Proof.
  destruct (run_spec rs s) as (_ & Hi & _).
  apply (f_equal length) in Hi.
  rewrite !length_fmap, length_seq in Hi. exact Hi.
Qed.

Lemma NoDup_fmap_of_nat (l : list nat) : NoDup l -> NoDup (Z.of_nat <$> l).
Proof. apply NoDup_fmap_2. intros x y. apply Nat2Z.inj. Qed.

(** C1. Over any run of the server from its initial store, the ids returned
    by the successful appends are 1, 2, 3, ... in order: the first is 1 and
    each is one more than the one before.  They are positive and pairwise
    distinct, so none is handed out twice. *)
Theorem append_ids_sequential rs :
  let ids := id <$> created_events (fst (run rs initial)) in
  ids = Z.of_nat <$> seq 1 (appends rs)
  /\ Forall (fun i => 0 < i) ids
  /\ NoDup ids.
Proof.
  cbv zeta.
  assert (H : id <$> created_events (fst (run rs initial))
              = Z.of_nat <$> seq 1 (appends rs)).
  { destruct (run_spec rs initial) as (_ & Hi & _). rewrite Hi.
    rewrite fmap_seq_shift. apply list_fmap_ext. intros _ i _. simpl. lia. }
  rewrite H. repeat split.
  - apply Forall_fmap, Forall_forall. intros i Hi.
    apply elem_of_seq in Hi. simpl. lia.
  - apply NoDup_fmap_of_nat, NoDup_seq.
Qed.

(* ===================================================================== *)
(** ** The store invariant *)
(* ===================================================================== *)

Lemma countdown_S n : countdown (S n) = Z.of_nat (S n) :: countdown n.
Proof.
  unfold countdown. simpl seq. rewrite fmap_cons, fmap_seq_shift.
  f_equal. apply list_fmap_ext. intros _ i _. lia.
Qed.

Lemma countdown_lookup n i :
  (i < n)%nat -> countdown n !! i = Some (Z.of_nat n - Z.of_nat i).
Proof.
  intros Hi. unfold countdown.
  rewrite list_lookup_fmap, lookup_seq_lt by exact Hi. reflexivity.
Qed.

Lemma countdown_bound n x : x ∈ countdown n -> 1 <= x <= Z.of_nat n.
Proof.
  unfold countdown. intros H.
  apply list_elem_of_fmap in H as (i & -> & Hi).
  apply elem_of_seq in Hi. lia.
Qed.

Lemma countdown_decreasing n : strictly_decreasing (countdown n).
Proof.
  induction n as [| n IH].
  - constructor.
  - rewrite countdown_S. constructor; [exact IH |].
    apply Forall_forall. intros x Hx. apply countdown_bound in Hx. lia.
Qed.

Lemma handle_preserves_invariant r s :
  nextId s = Z.of_nat (length (events s)) + 1 ->
  id <$> events s = countdown (length (events s)) ->
  nextId (snd (handle r s)) = Z.of_nat (length (events (snd (handle r s)))) + 1
  /\ id <$> events (snd (handle r s))
     = countdown (length (events (snd (handle r s)))).
Proof.
  intros Hn Hi. rewrite handle_store.
  destruct r as [now b | |]; [destruct (accepted b) | |]; auto.
  simpl events. simpl nextId. simpl length. split; [lia |].
  rewrite fmap_cons, countdown_S, Hi. f_equal. simpl. lia.
Qed.

(** The invariant of the store: the counter is one more than the number of
    events, and the ids count down from that number to 1. *)
Lemma reachable_invariant s :
  reachable s ->
  nextId s = Z.of_nat (length (events s)) + 1
  /\ id <$> events s = countdown (length (events s)).
Proof.
  induction 1 as [| r s H [IHn IHi]].
  - split; reflexivity.
  - apply handle_preserves_invariant; assumption.
Qed.

Lemma reachable_event_id s i e :
  reachable s -> events s !! i = Some e ->
  id e = Z.of_nat (length (events s)) - Z.of_nat i.
Proof.
  intros Hs He.
  destruct (reachable_invariant s Hs) as [_ Hi].
  assert (Hlt : (i < length (events s))%nat) by (eapply lookup_lt_Some; eauto).
  assert (H : (id <$> events s) !! i = Some (id e))
    by (rewrite list_lookup_fmap, He; reflexivity).
  rewrite Hi, countdown_lookup in H by exact Hlt. congruence.
Qed.

(** C9. In every reachable store with N events, the counter is N + 1 and
    the event at index i has id N - i: the ids are N, N-1, ..., 1 without a
    gap.  A rejected create does not move the counter, so it leaves none. *)
Theorem reachable_ids_consecutive s :
  reachable s ->
  let N := length (events s) in
  nextId s = Z.of_nat N + 1
  /\ id <$> events s = (fun i => Z.of_nat N - Z.of_nat i) <$> seq 0 N
  /\ (forall i e, events s !! i = Some e -> id e = Z.of_nat N - Z.of_nat i)
  /\ (forall now b, accepted b = false -> snd (post_events now b s) = s).
Proof.
  intros H. cbv zeta.
  destruct (reachable_invariant s H) as [Hn Hi].
  split; [exact Hn |]. split; [exact Hi |]. split.
  - intros i e. apply reachable_event_id. exact H.
  - intros now b Hb. rewrite post_events_eq, Hb. reflexivity.
Qed.

Lemma reachable_ids_consecutive_witness :
  let s := snd (run [POST_events "2024-05-01T10:00:00.000Z"
                       {| body_tagId := JStr "tag-1"; body_source := JStr "gate";
                          body_type := JStr "check-in" |};
                     POST_events "2024-05-01T10:00:01.000Z"
                       {| body_tagId := JStr ""; body_source := JStr "gate";
                          body_type := JStr "alert" |};
                     POST_events "2024-05-01T10:00:02.000Z"
                       {| body_tagId := JStr "tag-2"; body_source := JStr "dock";
                          body_type := JStr "alert" |}] initial) in
  reachable s
  /\ nextId s = 3
  /\ id <$> events s = [2; 1].
Proof.
  cbv zeta.
  match goal with |- reachable ?s /\ _ =>
    assert (Hr : reachable s) by (apply reachable_run; constructor);
    split; [exact Hr |];
    destruct (reachable_ids_consecutive s Hr) as (Hn & Hi & _ & _)
  end.
  split; [exact Hn | exact Hi].
Defined.

(* ===================================================================== *)
(** ** Listing *)
(* ===================================================================== *)

Lemma run_length_events rs s :
  length (events (snd (run rs s))) = (appends rs + length (events s))%nat.
Proof.
  destruct (run_spec rs s) as (_ & _ & He).
  rewrite He, length_app, length_reverse, length_created_events. reflexivity.
Qed.

Lemma run_keeps_events rs s i e :
  events s !! i = Some e ->
  events (snd (run rs s)) !! (appends rs + i)%nat = Some e.
Proof.
  intros He. destruct (run_spec rs s) as (_ & _ & Hev). rewrite Hev.
  rewrite lookup_app_r; rewrite length_reverse, length_created_events; [| lia].
  replace (appends rs + i - appends rs)%nat with i by lia. exact He.
Qed.

(** C3. After a run with N successful appends from the initial store, the
    list handler answers with exactly N events, newest first: the ids
    strictly decrease along the answer, so element 0 carries the highest
    id.  A successful append puts its event in front of the stored
    sequence (and a rejected one leaves the sequence alone). *)
Theorem list_newest_first rs now b :
  let s := snd (run rs initial) in
  (exists l,
      fst (get_events s) = json 200 (EventList l)
      /\ length l = appends rs
      /\ strictly_decreasing (id <$> l)
      /\ (forall e0 e, l !! 0%nat = Some e0 -> e ∈ l -> id e <= id e0))
  /\ events (snd (post_events now b s))
     = if accepted b then event_of now b (nextId s) :: events s else events s.
Proof.
  cbv zeta. split.
  - exists (events (snd (run rs initial))).
    assert (Hr : reachable (snd (run rs initial)))
      by (apply reachable_run; constructor).
    split; [reflexivity |]. split; [| split].
    + rewrite run_length_events. simpl. lia.
    + destruct (reachable_invariant _ Hr) as [_ Hi].
      rewrite Hi. apply countdown_decreasing.
    + intros e0 e H0 He.
      apply list_elem_of_lookup in He as [i He].
      rewrite (reachable_event_id _ _ _ Hr H0), (reachable_event_id _ _ _ Hr He).
      lia.
  - guard_cases b; reflexivity.
Qed.

(** C5. The event a successful append returns is the element the list
    handler later reports at the corresponding position, field for field:
    after [k] further successful appends (and any number of reads and
    rejected creates) it is element [k] of the answer. *)
Theorem append_list_round_trip now b s rs e :
  fst (post_events now b s) = json 201 (Created e) ->
  exists l,
    fst (get_events (snd (run rs (snd (post_events now b s)))))
    = json 200 (EventList l)
    /\ l !! appends rs = Some e.
Proof.
  intros H. rewrite post_events_eq in *.
  destruct (accepted b); [| discriminate H].
  simpl in H. injection H as <-. simpl snd.
  eexists. split; [reflexivity |].
  replace (appends rs) with (appends rs + 0)%nat by lia.
  apply run_keeps_events. reflexivity.
Qed.

Lemma append_list_round_trip_witness :
  let b := {| body_tagId := JStr "tag-1"; body_source := JStr "gate";
              body_type := JStr "check-in" |} in
  let e := {| id := 1; tagId := JStr "tag-1"; source := JStr "gate";
              type := JStr "check-in"; createdAt := "2024-05-01T10:00:00.000Z" |} in
  let rs := [GET_stats;
             POST_events "2024-05-01T10:00:01.000Z"
               {| body_tagId := JStr "tag-2"; body_source := JStr "dock";
                  body_type := JStr "alert" |};
             POST_events "2024-05-01T10:00:02.000Z"
               {| body_tagId := JStr "tag-3"; body_source := JNull;
                  body_type := JStr "alert" |}] in
  exists l,
    fst (get_events (snd (run rs (snd (post_events "2024-05-01T10:00:00.000Z" b initial)))))
    = json 200 (EventList l)
    /\ l !! 1%nat = Some e.
Proof.
  cbv zeta.
  apply (append_list_round_trip "2024-05-01T10:00:00.000Z"
           {| body_tagId := JStr "tag-1"; body_source := JStr "gate";
              body_type := JStr "check-in" |}
           initial
           [GET_stats;
            POST_events "2024-05-01T10:00:01.000Z"
              {| body_tagId := JStr "tag-2"; body_source := JStr "dock";
                 body_type := JStr "alert" |};
            POST_events "2024-05-01T10:00:02.000Z"
              {| body_tagId := JStr "tag-3"; body_source := JNull;
                 body_type := JStr "alert" |}]).
  reflexivity.
Defined.

(* ===================================================================== *)
(** ** Reads and the frame *)
(* ===================================================================== *)

Lemma is_read_not_creates r : is_read r = true -> creates r = false.
Proof. destruct r; simpl; congruence. Qed.

Lemma run_reads rs s :
  forallb is_read rs = true ->
  run rs s = ((fun r => fst (handle r s)) <$> rs, s).
Proof.
  induction rs as [| r rs IH]; intros H.
  - reflexivity.
  - simpl in H. apply andb_prop in H as [Hr Hrs].
    rewrite run_cons, (handle_not_creates r s (is_read_not_creates r Hr)),
      (IH Hrs).
    reflexivity.
Qed.

(** C6. Over any sequence of calls to the list and stats handlers, with no
    append in between, every call answers what it answers on the store the
    sequence started from, so two calls of the same handler answer the
    same; and the store is the same after the sequence as before it. *)
Theorem reads_idempotent rs s :
  forallb is_read rs = true ->
  run rs s = ((fun r => fst (handle r s)) <$> rs, s)
  /\ (forall i j r x y,
        rs !! i = Some r -> rs !! j = Some r ->
        fst (run rs s) !! i = Some x -> fst (run rs s) !! j = Some y ->
        x = y)
  /\ snd (get_events s) = s
  /\ snd (get_stats s) = s.
Proof.
  intros H. pose proof (run_reads rs s H) as Hrun.
  split; [exact Hrun |]. split; [| split; reflexivity].
  intros i j r x y Hi Hj Hx Hy.
  rewrite Hrun in Hx, Hy. simpl in Hx, Hy.
  rewrite list_lookup_fmap, Hi in Hx. rewrite list_lookup_fmap, Hj in Hy.
  simpl in Hx, Hy. congruence.
Qed.

Lemma reads_idempotent_witness :
  let s := snd (run [POST_events "2024-05-01T10:00:00.000Z"
                       {| body_tagId := JStr "tag-1"; body_source := JStr "gate";
                          body_type := JStr "check-in" |}] initial) in
  let rs := [GET_events; GET_stats; GET_stats; GET_events] in
  run rs s = ((fun r => fst (handle r s)) <$> rs, s)
  /\ (forall i j r x y,
        rs !! i = Some r -> rs !! j = Some r ->
        fst (run rs s) !! i = Some x -> fst (run rs s) !! j = Some y ->
        x = y)
  /\ snd (get_events s) = s
  /\ snd (get_stats s) = s.
Proof.
  cbv zeta.
  apply (reads_idempotent [GET_events; GET_stats; GET_stats; GET_events]).
  reflexivity.
Defined.

(** C7. Events come into the store through a successful create and in no
    other way, and nothing updates or deletes them.  A request that is not
    a successful create leaves the whole store (sequence and counter) as it
    was; a successful create puts one event in front and advances the
    counter by one.  Over any run, every event already stored is still
    there afterwards, unchanged, behind the events created since. *)
Theorem store_changes_only_by_create r rs s :
  (creates r = false -> snd (handle r s) = s)
  /\ (creates r = true ->
      exists e, snd (handle r s)
                = {| events := e :: events s; nextId := nextId s + 1 |}
                /\ fst (handle r s) = json 201 (Created e))
  /\ events s `suffix_of` events (snd (run rs s))
  /\ (forall i e, events s !! i = Some e ->
                  events (snd (run rs s)) !! (appends rs + i)%nat = Some e)
  /\ length (events (snd (run rs s))) = (appends rs + length (events s))%nat.
Proof.
  split; [apply handle_not_creates |]. split; [| split; [| split]].
  - destruct r as [now b | |]; simpl; try discriminate.
    intros Hb. rewrite post_events_eq, Hb. eexists. split; reflexivity.
  - destruct (run_spec rs s) as (_ & _ & He). rewrite He.
    eexists. reflexivity.
  - intros i e. apply run_keeps_events.
  - apply run_length_events.
Qed.

(* ===================================================================== *)
(** ** Statistics: the counting tables *)
(* ===================================================================== *)

Lemma append_assoc (a b c : string) : (a +:+ b) +:+ c = a +:+ (b +:+ c).
Proof.
  induction a as [| x a IH]; [reflexivity |].
  change (String x ((a +:+ b) +:+ c) = String x (a +:+ (b +:+ c))).
  f_equal. exact IH.
Qed.

(** The loop fills the two tables independently of each other. *)
Lemma stats_loop_split evs (a b : gmap string cell) :
  fold_left
    (fun (t : gmap string cell * gmap string cell) e =>
       (count_up (fst t) (to_property_key (type e)),
        count_up (snd t) (to_property_key (source e))))
    evs (a, b)
  = (fold_left count_up (type_keys evs) a,
     fold_left count_up (source_keys evs) b).
Proof.
  revert a b. induction evs as [| e evs IH]; intros a b.
  - reflexivity.
  - simpl. rewrite IH. reflexivity.
Qed.

Lemma computeStats_tables evs :
  eventsByType (computeStats evs) = fold_left count_up (type_keys evs) ∅
  /\ eventsBySource (computeStats evs) = fold_left count_up (source_keys evs) ∅.
Proof.
  unfold computeStats. simpl. rewrite stats_loop_split. split; reflexivity.
Qed.

Lemma occurrences_snoc k keys x :
  occurrences k (keys ++ [x]) =
  if decide (x = k) then S (occurrences k keys) else occurrences k keys.
Proof.
  unfold occurrences. rewrite filter_app, length_app.
  rewrite filter_cons, filter_nil.
  destruct (decide (x = k)); simpl; lia.
Qed.


Lemma native_source_nonempty f t : String.eqb (native_source f +:+ t) "" = false.
Proof. reflexivity. Qed.

(** One more occurrence of [k] takes the cell for [n] occurrences to the
    cell for [n + 1]. *)
Lemma count_up_step o k n :
  o !! k = cell_after k n ->
  count_up o k !! k = cell_after k (S n).
Proof.
  intros Hk. unfold count_up, prop_set, prop_get.
  destruct (String.eqb k "__proto__") eqn:Hp.
  - rewrite Hk. unfold cell_after. rewrite Hp. destruct n; reflexivity.
  - rewrite lookup_insert_eq, Hk. unfold cell_after. rewrite Hp.
    destruct (assoc k Object_prototype_methods) as [f |], n as [| n].
    + reflexivity.
    + unfold or_zero_plus_one.
      rewrite native_source_nonempty, append_assoc. reflexivity.
    + reflexivity.
    + unfold or_zero_plus_one.
      replace (Z.of_nat (S n) =? 0) with false by (symmetry; apply Z.eqb_neq; lia).
      do 2 f_equal. lia.
Qed.

Lemma count_up_other o k k' : k <> k' -> count_up o k !! k' = o !! k'.
Proof.
  intros Hne. unfold count_up, prop_set.
  destruct (String.eqb k "__proto__"); [reflexivity |].
  apply lookup_insert_ne. exact Hne.
Qed.

(** The table the loop builds, key by key. *)
Lemma fold_count_up_lookup keys k :
  fold_left count_up keys ∅ !! k = cell_after k (occurrences k keys).
Proof.
  induction keys as [| x keys IH] using rev_ind.
  - reflexivity.
  - rewrite fold_left_app, occurrences_snoc. simpl.
    destruct (decide (x = k)) as [-> | Hne].
    + apply count_up_step. exact IH.
    + rewrite count_up_other by exact Hne. exact IH.
Qed.



(* ===================================================================== *)
(** ** Statistics: sums of the counts *)
(* ===================================================================== *)

Lemma sum_counts_empty : sum_counts ∅ = 0.
Proof. apply map_fold_empty. Qed.

Lemma sum_counts_insert_fresh (o : gmap string cell) k c :
  o !! k = None -> sum_counts (<[k := c]> o) = count_of c + sum_counts o.
Proof.
  intros H. unfold sum_counts.
  rewrite map_fold_insert_L; [reflexivity | | exact H].
  intros. lia.
Qed.

Lemma sum_counts_insert (o : gmap string cell) k c :
  sum_counts (<[k := c]> o)
  = count_of c + sum_counts o - from_option count_of 0 (o !! k).
Proof.
  destruct (o !! k) as [c0 |] eqn:Hk; simpl.
  - rewrite <- (insert_delete_id o k c0 Hk) at 2.
    rewrite <- insert_delete_eq.
    rewrite !sum_counts_insert_fresh by apply lookup_delete_eq. lia.
  - rewrite sum_counts_insert_fresh by exact Hk. lia.
Qed.

Lemma count_of_cell_after k n :
  from_option count_of 0 (cell_after k n)
  = if inherited k then 0 else Z.of_nat n.
Proof.
  unfold cell_after, inherited.
  destruct n as [| n]; [destruct (_ || _); reflexivity |].
  destruct (String.eqb k "__proto__"); [reflexivity |].
  destruct (assoc k Object_prototype_methods); reflexivity.
Qed.

Lemma sum_counts_count_up o k n :
  o !! k = cell_after k n ->
  sum_counts (count_up o k) = sum_counts o + (if inherited k then 0 else 1).
Proof.
  intros Hk. pose proof (count_up_step o k n Hk) as Hstep.
  pose proof (count_of_cell_after k n) as Hold.
  pose proof (count_of_cell_after k (S n)) as Hnew.
  rewrite <- Hk in Hold. rewrite <- Hstep in Hnew.
  unfold count_up, prop_set in *.
  destruct (String.eqb k "__proto__") eqn:Hp.
  - unfold inherited. rewrite Hp. simpl. lia.
  - rewrite sum_counts_insert. rewrite lookup_insert_eq in Hnew. simpl in Hnew.
    destruct (inherited k); lia.
Qed.

(** The counts of a table add up to the number of keys that [{}] does not
    inherit: each such key adds one, an inherited key adds nothing. *)
Lemma sum_counts_fold keys :
  sum_counts (fold_left count_up keys ∅)
  = Z.of_nat (length (filter (fun k => inherited k = false) keys)).
Proof.
  induction keys as [| x keys IH] using rev_ind.
  - reflexivity.
  - rewrite fold_left_app, filter_app, length_app. simpl fold_left.
    rewrite (sum_counts_count_up _ x (occurrences x keys))
      by apply fold_count_up_lookup.
    rewrite IH, filter_cons, filter_nil.
    destruct (inherited x); destruct (decide _); simpl; try congruence; lia.
Qed.



(* ===================================================================== *)
(** ** Statistics: distinct tags *)
(* ===================================================================== *)

Lemma Set_add_spec acc v :
  NoDup acc ->
  NoDup (Set_add acc v) /\ forall x, x ∈ Set_add acc v <-> x ∈ acc \/ x = v.
Proof.
  intros Hacc. unfold Set_add.
  destruct (bool_decide (v ∈ acc)) eqn:Hv.
  - apply bool_decide_eq_true in Hv. split; [exact Hacc |].
    intros x. split; [auto |]. intros [Hx | ->]; assumption.
  - apply bool_decide_eq_false in Hv. split.
    + apply NoDup_app. split; [exact Hacc |]. split; [| apply NoDup_singleton].
      intros x Hx Hx'. apply list_elem_of_singleton in Hx'. subst. auto.
    + intros x. rewrite elem_of_app, list_elem_of_singleton. reflexivity.
Qed.

Lemma fold_Set_add_spec l acc :
  NoDup acc ->
  NoDup (fold_left Set_add l acc)
  /\ forall x, x ∈ fold_left Set_add l acc <-> x ∈ acc \/ x ∈ l.
Proof.
  revert acc. induction l as [| v l IH]; intros acc Hacc; simpl.
  - split; [exact Hacc |]. intros x. rewrite elem_of_nil. tauto.
  - destruct (Set_add_spec acc v Hacc) as [Hnd Hin].
    destruct (IH _ Hnd) as [Hnd' Hin'].
    split; [exact Hnd' |].
    intros x. rewrite Hin', Hin, elem_of_cons. tauto.
Qed.

(** The set holds each value of the list once. *)
Lemma new_Set_spec l :
  NoDup (new_Set l) /\ forall x, x ∈ new_Set l <-> x ∈ l.
Proof.
  destruct (fold_Set_add_spec l [] (NoDup_nil_2)) as [Hnd Hin].
  split; [exact Hnd |]. intros x. rewrite (Hin x), elem_of_nil. tauto.
Qed.

Lemma new_Set_length l : length (new_Set l) = length (remove_dups l).
Proof.
  destruct (new_Set_spec l) as [Hnd Hin].
  apply Permutation_length, NoDup_Permutation;
    [exact Hnd | apply NoDup_remove_dups |].
  intros x. rewrite Hin, elem_of_remove_dups. reflexivity.
Qed.

Lemma new_Set_length_le l : (length (new_Set l) <= length l)%nat.
Proof.
  destruct (new_Set_spec l) as [Hnd Hin].
  apply submseteq_length, NoDup_submseteq; [exact Hnd |].
  intros x. apply Hin.
Qed.

Lemma new_Set_empty_iff l : length (new_Set l) = 0%nat <-> l = [].
Proof.
  split; [| intros ->; reflexivity].
  destruct l as [| x l]; [reflexivity |]. intros H.
  destruct (new_Set_spec (x :: l)) as [_ Hin].
  apply length_zero_iff_nil in H. rewrite H in Hin.
  exfalso. apply (not_elem_of_nil x), Hin. left.
Qed.

(* ===================================================================== *)
(** ** Statistics: what the handler reports *)
(* ===================================================================== *)

(** X6. The parts of the report that hold in every store: the total is the
    number of stored events, and uniqueTags is the number of distinct
    tagId values, between 0 and the total and 0 only for the empty store. *)
Lemma computeStats_totals evs :
  totalEvents (computeStats evs) = Z.of_nat (length evs)
  /\ uniqueTags (computeStats evs)
     = Z.of_nat (length (remove_dups (tagId <$> evs)))
  /\ 0 <= uniqueTags (computeStats evs) <= totalEvents (computeStats evs)
  /\ (uniqueTags (computeStats evs) = 0 <-> evs = []).
Proof.
  unfold computeStats. simpl.
  change (map tagId evs) with (tagId <$> evs).
  split; [reflexivity |]. split; [rewrite new_Set_length; reflexivity |].
  split.
  - pose proof (new_Set_length_le (tagId <$> evs)) as H.
    rewrite length_fmap in H. lia.
  - split; [| intros ->; reflexivity].
    intros H. apply (fmap_nil_inv tagId), new_Set_empty_iff. lia.
Qed.




(** The two examples of the specification: tagIds A, A, B give a total of 3
    and 2 distinct tags; types alert, status, alert give the table
    alert: 2, status: 1. *)
Lemma computeStats_spec_examples :
  let answer := last (fst (run
    [POST_events "2024-05-01T10:00:00.000Z"
       {| body_tagId := JStr "A"; body_source := JStr "gate";
          body_type := JStr "alert" |};
     POST_events "2024-05-01T10:00:01.000Z"
       {| body_tagId := JStr "A"; body_source := JStr "gate";
          body_type := JStr "status" |};
     POST_events "2024-05-01T10:00:02.000Z"
       {| body_tagId := JStr "B"; body_source := JStr "dock";
          body_type := JStr "alert" |};
     GET_stats] initial)) in
  answer = Some (json 200 (StatsReport
    {| totalEvents := 3;
       uniqueTags := 2;
       eventsByType := <["alert" := Number 2]> (<["status" := Number 1]> ∅);
       eventsBySource := <["gate" := Number 2]> (<["dock" := Number 1]> ∅) |})).
Proof. reflexivity. Qed.

(** C4. The stats handler reports the number of stored events as
    totalEvents and the number of distinct tagIds as uniqueTags, and the
    examples of the specification come out as stated; but eventsByType is
    not the frequency table of the types in every store.  After one create
    with the type constructor, a name [{}] inherits, the table maps
    constructor to a string and not to the count 1. *)
Theorem stats_inherited_type_not_counted :
  let e := {| id := 1; tagId := JStr "tag-1"; source := JStr "gate";
              type := JStr "constructor";
              createdAt := "2024-05-01T10:00:00.000Z" |} in
  let rs := [POST_events "2024-05-01T10:00:00.000Z"
               {| body_tagId := JStr "tag-1"; body_source := JStr "gate";
                  body_type := JStr "constructor" |};
             GET_stats] in
  fst (run rs initial)
  = [ json 201 (Created e);
      json 200 (StatsReport
        {| totalEvents := 1;
           uniqueTags := 1;
           eventsByType :=
             {[ "constructor" := Text "function Object() { [native code] }1" ]};
           eventsBySource := {[ "gate" := Number 1 ]} |}) ]
  /\ occurrences "constructor" (type_keys [e]) = 1%nat
  /\ ~ frequency_table (eventsByType (computeStats [e])) (type_keys [e]).
Proof.
  cbv zeta. split; [reflexivity |]. split; [reflexivity |].
  intros H. specialize (H "constructor"). vm_compute in H. discriminate.
Qed.

(** C10. In every store 0 <= uniqueTags <= totalEvents, with uniqueTags = 0
    exactly for the empty store; but the counts of a table need not add up
    to totalEvents, nor be numbers that are at least 1.  After one create
    with the type __proto__ and the source constructor, totalEvents is 1
    while eventsByType is empty, so its counts add up to 0, and the one
    cell of eventsBySource is a string. *)
Theorem stats_inherited_keys_break_sums :
  let e := {| id := 1; tagId := JStr "tag-1"; source := JStr "constructor";
              type := JStr "__proto__";
              createdAt := "2024-05-01T10:00:00.000Z" |} in
  let rs := [POST_events "2024-05-01T10:00:00.000Z"
               {| body_tagId := JStr "tag-1"; body_source := JStr "constructor";
                  body_type := JStr "__proto__" |};
             GET_stats] in
  fst (run rs initial)
  = [ json 201 (Created e);
      json 200 (StatsReport
        {| totalEvents := 1;
           uniqueTags := 1;
           eventsByType := ∅;
           eventsBySource :=
             {[ "constructor" := Text "function Object() { [native code] }1" ]}
        |}) ]
  /\ sum_counts (eventsByType (computeStats [e])) = 0
  /\ totalEvents (computeStats [e]) = 1
  /\ ~ counts_positive (eventsBySource (computeStats [e])).
Proof.
  cbv zeta. split; [reflexivity |]. split; [reflexivity |].
  split; [reflexivity |].
  intros H.
  destruct (H "constructor" (Text "function Object() { [native code] }1"))
    as (n & Hn & _); [reflexivity | discriminate].
Qed.

(* ===================================================================== *)
(** ** More on the store and the statistics *)
(* ===================================================================== *)









(** X5. The counts of a table add up to the number of events whose key is not
    an inherited name; they never exceed totalEvents. *)
Theorem stats_sums evs :
  let st := computeStats evs in
  sum_counts (eventsByType st)
  = Z.of_nat (length (filter (fun k => inherited k = false) (type_keys evs)))
  /\ sum_counts (eventsBySource st)
     = Z.of_nat (length (filter (fun k => inherited k = false) (source_keys evs)))
  /\ sum_counts (eventsByType st) <= totalEvents st
  /\ sum_counts (eventsBySource st) <= totalEvents st.
Proof.
  cbv zeta. destruct (computeStats_tables evs) as [-> ->].
  rewrite !sum_counts_fold.
  assert (Hle : forall keys : list string,
             (length (filter (fun k => inherited k = false) keys) <= length keys)%nat)
    by (intros keys; apply length_filter).
  pose proof (Hle (type_keys evs)) as Ht. pose proof (Hle (source_keys evs)) as Hs.
  unfold type_keys, source_keys in *. rewrite length_fmap in Ht, Hs.
  unfold computeStats. simpl totalEvents.
  repeat split; lia.
Qed.

Lemma occurrences_Permutation k (l l' : list string) :
  l ≡ₚ l' -> occurrences k l = occurrences k l'.
Proof. intros H. unfold occurrences. rewrite H. reflexivity. Qed.

Lemma fold_count_up_Permutation (l l' : list string) :
  l ≡ₚ l' -> fold_left count_up l ∅ = fold_left count_up l' ∅.
Proof.
  intros H. apply map_eq. intros k.
  rewrite !fold_count_up_lookup, (occurrences_Permutation k l l' H). reflexivity.
Qed.

Lemma new_Set_length_Permutation (l l' : list jsval) :
  l ≡ₚ l' -> length (new_Set l) = length (new_Set l').
Proof.
  intros H. destruct (new_Set_spec l) as [Hnd Hin].
  destruct (new_Set_spec l') as [Hnd' Hin'].
  apply Permutation_length, NoDup_Permutation; [exact Hnd | exact Hnd' |].
  intros x. rewrite Hin, Hin', H. reflexivity.
Qed.

(** X7. The report does not depend on the order of the stored events: any
    rearrangement of the array gives the same four fields. *)
Theorem stats_order_irrelevant evs evs' :
  evs ≡ₚ evs' -> computeStats evs = computeStats evs'.
Proof.
  intros H.
  destruct (computeStats_tables evs) as [Ht Hs].
  destruct (computeStats_tables evs') as [Ht' Hs'].
  assert (E1 : totalEvents (computeStats evs) = totalEvents (computeStats evs'))
    by (unfold computeStats; simpl; rewrite H; reflexivity).
  assert (E2 : uniqueTags (computeStats evs) = uniqueTags (computeStats evs')).
  { unfold computeStats. simpl. f_equal. apply new_Set_length_Permutation.
    change (tagId <$> evs ≡ₚ tagId <$> evs'). rewrite H. reflexivity. }
  assert (E3 : eventsByType (computeStats evs) = eventsByType (computeStats evs')).
  { rewrite Ht, Ht'. apply fold_count_up_Permutation.
    unfold type_keys. rewrite H. reflexivity. }
  assert (E4 : eventsBySource (computeStats evs) = eventsBySource (computeStats evs')).
  { rewrite Hs, Hs'. apply fold_count_up_Permutation.
    unfold source_keys. rewrite H. reflexivity. }
  destruct (computeStats evs), (computeStats evs'). simpl in *. congruence.
Qed.

Lemma stats_order_irrelevant_witness :
  let e1 := {| id := 1; tagId := JStr "tag-1"; source := JStr "gate";
               type := JStr "alert"; createdAt := "2024-05-01T10:00:00.000Z" |} in
  let e2 := {| id := 2; tagId := JStr "tag-2"; source := JStr "constructor";
               type := JStr "status"; createdAt := "2024-05-01T10:00:01.000Z" |} in
  let e3 := {| id := 3; tagId := JStr "tag-1"; source := JStr "gate";
               type := JStr "alert"; createdAt := "2024-05-01T10:00:02.000Z" |} in
  computeStats [e3; e2; e1] = computeStats [e1; e2; e3].
Proof.
  cbv zeta. apply stats_order_irrelevant.
  eapply perm_trans; [apply perm_swap |].
  eapply perm_trans; [apply perm_skip, perm_swap |].
  apply perm_swap.
Defined.





(** X9. Only the successful creates of a history matter: dropping every read
    and every rejected create from a run leaves the final store and the
    created events as they were. *)
Theorem run_only_creates_matter rs s :
  let cs := filter (fun r => creates r = true) rs in
  snd (run rs s) = snd (run cs s)
  /\ created_events (fst (run rs s)) = created_events (fst (run cs s)).
Proof.
  cbv zeta. revert s. induction rs as [| r rs IH]; intros s.
  - split; reflexivity.
  - rewrite filter_cons. destruct (decide (creates r = true)) as [Hc | Hc].
    + rewrite !run_cons. simpl fst. simpl snd.
      rewrite !created_events_cons.
      destruct (IH (snd (handle r s))) as [-> ->]. split; reflexivity.
    + apply not_true_is_false in Hc.
      rewrite run_cons. simpl fst. simpl snd.
      rewrite created_events_cons, handle_created, (handle_not_creates r s Hc).
      destruct r as [now b | |]; simpl in Hc; [rewrite Hc |..]; apply IH.
Qed.

(* ===================================================================== *)
(** ** The dashboard: theme *)
(* ===================================================================== *)

Lemma toggleTheme_cases t : toggleTheme t = "light" \/ toggleTheme t = "dark".
Proof. unfold toggleTheme. destruct (String.eqb t "dark"); auto. Qed.

Lemma getPreferredTheme_nonempty stored prefers_light :
  getPreferredTheme true stored prefers_light <> "".
Proof.
  unfold getPreferredTheme. simpl.
  destruct stored as [t |]; [destruct (String.eqb t "") eqn:E |];
    try (destruct prefers_light; discriminate).
  apply String.eqb_neq. exact E.
Qed.

(** X10. A theme the component has been in comes back after a reload: whatever
    the stored value was at start, however often the theme was toggled and
    whatever the colour scheme of the system is by then, the stored theme
    is the one [getPreferredTheme] returns. *)
Theorem theme_survives_reload stored prefers_light prefers_light' storage n :
  let t := Nat.iter n toggleTheme (getPreferredTheme true stored prefers_light) in
  getPreferredTheme true (persist_theme true t storage !! "theme") prefers_light' = t.
Proof.
  cbv zeta.
  set (t := Nat.iter n toggleTheme (getPreferredTheme true stored prefers_light)).
  assert (Ht : t <> "").
  { subst t. destruct n as [| n]; simpl.
    - apply getPreferredTheme_nonempty.
    - destruct (toggleTheme_cases
                  (Nat.iter n toggleTheme (getPreferredTheme true stored prefers_light)))
        as [-> | ->]; discriminate. }
  unfold persist_theme. rewrite lookup_insert_eq.
  unfold getPreferredTheme. simpl.
  apply String.eqb_neq in Ht. rewrite Ht. reflexivity.
Qed.

(** X11. Toggling always lands on light or dark, and two toggles give the theme
    back exactly when it was one of the two: a stored value that is neither
    is shown as it is until the first toggle and is then gone. *)
Theorem toggleTheme_two_valued t :
  (toggleTheme t = "light" \/ toggleTheme t = "dark")
  /\ (toggleTheme (toggleTheme t) = t <-> t = "light" \/ t = "dark")
  /\ (t <> "dark" -> toggleTheme t = "dark").
Proof.
  split; [apply toggleTheme_cases |]. unfold toggleTheme.
  destruct (String.eqb t "dark") eqn:E.
  - apply String.eqb_eq in E. subst. simpl. split; [tauto | congruence].
  - simpl. apply String.eqb_neq in E. split; [| reflexivity].
    split; [intros <-; auto | intros [-> | ->]; [reflexivity | congruence]].
Qed.

(* ===================================================================== *)
(** ** The dashboard: the scale of the bar charts *)
(* ===================================================================== *)



(* ===================================================================== *)
(** ** The dashboard: the trend window *)
(* ===================================================================== *)

Lemma insert_by_time_Permutation g a l : insert_by_time g a l ≡ₚ a :: l.
Proof.
  induction l as [| b l IH]; simpl; [reflexivity |].
  destruct (0 <? compare_createdAt g a b); [| reflexivity].
  rewrite IH. apply perm_swap.
Qed.

Lemma sort_by_time_Permutation g l : sort_by_time g l ≡ₚ l.
Proof.
  induction l as [| a l IH]; simpl; [reflexivity |].
  rewrite insert_by_time_Permutation, IH. reflexivity.
Qed.

Lemma slice_last_length {A} n (l : list A) :
  length (slice_last n l) = Nat.min n (length l).
Proof. unfold slice_last. rewrite length_drop. lia. Qed.

Lemma string_length_app (a b : string) :
  String.length (a +:+ b) = (String.length a + String.length b)%nat.
Proof.
  induction a as [| x a IH]; [reflexivity |].
  change (S (String.length (a +:+ b)) = S (String.length a + String.length b)).
  rewrite IH. reflexivity.
Qed.

(** X13. The trend shows at most 12 events, all of them while there are no more
    than 12; each comes from the list, none is shown twice over; and the
    pill reads Idle exactly when there is no event. *)
Theorem trendEvents_window g evs :
  length (trendEvents g evs) = Nat.min 12 (length evs)
  /\ trendEvents g evs ⊆+ evs
  /\ (status_pill g evs = "Idle" <-> evs = []).
Proof.
  assert (Hlen : length (trendEvents g evs) = Nat.min 12 (length evs)).
  { unfold trendEvents. rewrite slice_last_length.
    rewrite (Permutation_length (sort_by_time_Permutation g evs)). reflexivity. }
  split; [exact Hlen |]. split.
  - unfold trendEvents, slice_last.
    rewrite <- (sort_by_time_Permutation g evs) at 3. apply submseteq_drop.
  - unfold status_pill. rewrite Hlen.
    destruct evs as [| e evs]; [split; reflexivity |].
    split; [| discriminate].
    replace (Nat.min 12 (length (e :: evs)) =? 0)%nat with false
      by (symmetry; apply Nat.eqb_neq; simpl; lia).
    intros E. apply (f_equal String.length) in E.
    rewrite string_length_app in E. simpl in E. lia.
Qed.

Lemma compare_le_of_time_le g a b :
  time_le g a b -> (0 <? compare_createdAt g a b) = false.
Proof.
  unfold time_le, compare_createdAt.
  destruct (g (createdAt a)), (g (createdAt b)); try tauto.
  intros H. apply Z.ltb_ge. lia.
Qed.

Lemma compare_gt_of_time_gt g a b :
  time_gt g a b -> (0 <? compare_createdAt g a b) = true.
Proof.
  unfold time_gt, compare_createdAt.
  destruct (g (createdAt a)), (g (createdAt b)); try tauto.
  intros H. apply Z.ltb_lt. lia.
Qed.

Lemma time_le_trans g a b c : time_le g a b -> time_le g b c -> time_le g a c.
Proof.
  unfold time_le.
  destruct (g (createdAt a)), (g (createdAt b)), (g (createdAt c)); try tauto.
  lia.
Qed.

Lemma time_le_total g a b :
  is_Some (g (createdAt a)) -> is_Some (g (createdAt b)) ->
  (0 <? compare_createdAt g a b) = true /\ time_le g b a
  \/ (0 <? compare_createdAt g a b) = false /\ time_le g a b.
Proof.
  intros [ta Ha] [tb Hb]. unfold compare_createdAt, time_le. rewrite Ha, Hb.
  destruct (0 <? ta - tb) eqn:E.
  - left. split; [reflexivity |]. apply Z.ltb_lt in E. lia.
  - right. split; [reflexivity |]. apply Z.ltb_ge in E. lia.
Qed.

Lemma insert_by_time_sorted g a l :
  is_Some (g (createdAt a)) ->
  Forall (fun e => is_Some (g (createdAt e))) l ->
  StronglySorted (time_le g) l ->
  StronglySorted (time_le g) (insert_by_time g a l).
Proof.
  intros Ha Hl Hs. induction Hs as [| b l Hs IH Hb]; simpl.
  - repeat constructor.
  - apply Forall_cons in Hl as [Hvb Hl].
    destruct (time_le_total g a b Ha Hvb) as [[-> Hba] | [-> Hab]].
    + constructor; [apply IH; exact Hl |].
      rewrite insert_by_time_Permutation. constructor; assumption.
    + constructor; [constructor; assumption |].
      constructor; [exact Hab |].
      eapply Forall_impl; [exact Hb |]. intros c Hc.
      eapply time_le_trans; eassumption.
Qed.

Lemma sort_by_time_sorted g l :
  Forall (fun e => is_Some (g (createdAt e))) l ->
  StronglySorted (time_le g) (sort_by_time g l).
Proof.
  induction 1 as [| a l Ha Hl IH]; simpl; [constructor |].
  apply insert_by_time_sorted; [exact Ha | | exact IH].
  rewrite sort_by_time_Permutation. exact Hl.
Qed.

(** X14. With timestamps that all parse, the trend is in order of time and
    holds the latest events: the events split into the ones left out and
    the ones shown, and along "left out, then shown" no event is later
    than one that follows it. *)
Theorem trendEvents_latest g evs :
  Forall (fun e => is_Some (g (createdAt e))) evs ->
  exists older,
    evs ≡ₚ older ++ trendEvents g evs
    /\ StronglySorted (time_le g) (older ++ trendEvents g evs)
    /\ StronglySorted (time_le g) (trendEvents g evs)
    /\ (forall a b, a ∈ older -> b ∈ trendEvents g evs -> time_le g a b).
Proof.
  intros Hv.
  exists (take (length (sort_by_time g evs) - 12) (sort_by_time g evs)).
  unfold trendEvents, slice_last. rewrite take_drop.
  pose proof (sort_by_time_sorted g evs Hv) as Hs.
  split; [symmetry; apply sort_by_time_Permutation |].
  split; [exact Hs |].
  rewrite <- (take_drop (length (sort_by_time g evs) - 12) (sort_by_time g evs)) in Hs.
  apply StronglySorted_app in Hs as (Hcross & _ & Hd).
  split; [exact Hd |]. intros a b Ha Hb. apply Hcross; assumption.
Qed.

Lemma trendEvents_latest_witness :
  let evs := [ {| id := 3; tagId := JStr "tag-1"; source := JStr "gate";
                  type := JStr "alert"; createdAt := "2024-05-01T10:00:02.000Z" |};
               {| id := 2; tagId := JStr "tag-2"; source := JStr "gate";
                  type := JStr "status"; createdAt := "2024-05-01T10:00:00.000Z" |};
               {| id := 1; tagId := JStr "tag-1"; source := JStr "dock";
                  type := JStr "alert"; createdAt := "2024-05-01T10:00:00.000Z" |} ] in
  exists older,
    evs ≡ₚ older ++ trendEvents getTime_sample evs
    /\ StronglySorted (time_le getTime_sample) (older ++ trendEvents getTime_sample evs)
    /\ StronglySorted (time_le getTime_sample) (trendEvents getTime_sample evs)
    /\ (forall a b, a ∈ older -> b ∈ trendEvents getTime_sample evs ->
                    time_le getTime_sample a b).
Proof.
  cbv zeta. apply (trendEvents_latest getTime_sample).
  repeat constructor; eexists; reflexivity.
Defined.

Lemma insert_by_time_last g a l :
  Forall (fun b => time_gt g a b) l -> insert_by_time g a l = l ++ [a].
Proof.
  induction 1 as [| b l Hb Hl IH]; simpl; [reflexivity |].
  rewrite (compare_gt_of_time_gt g a b Hb), IH. reflexivity.
Qed.

Lemma sort_by_time_reverse g l :
  StronglySorted (time_gt g) l -> sort_by_time g l = reverse l.
Proof.
  induction 1 as [| a l Hs IH Ha]; simpl; [reflexivity |].
  rewrite IH, reverse_cons. apply insert_by_time_last.
  apply Forall_reverse. exact Ha.
Qed.

Lemma slice_last_reverse {A} n (l : list A) :
  slice_last n (reverse l) = reverse (take n l).
Proof.
  unfold slice_last. rewrite drop_reverse, length_reverse.
  destruct (decide (length l <= n)%nat) as [Hle | Hgt].
  - rewrite !take_ge by lia. reflexivity.
  - f_equal. f_equal. lia.
Qed.

(** X15. The list handler answers newest first.  When the timestamps strictly
    decrease along the list (no two events in one millisecond), the trend
    is the 12 newest events, oldest of them first. *)
Theorem trendEvents_newest g evs :
  StronglySorted (time_gt g) evs ->
  trendEvents g evs = reverse (take 12 evs).
Proof.
  intros H. unfold trendEvents.
  rewrite (sort_by_time_reverse g evs H). apply slice_last_reverse.
Qed.

Lemma trendEvents_newest_witness :
  let e3 := {| id := 3; tagId := JStr "tag-1"; source := JStr "gate";
               type := JStr "alert"; createdAt := "2024-05-01T10:00:02.000Z" |} in
  let e2 := {| id := 2; tagId := JStr "tag-2"; source := JStr "gate";
               type := JStr "status"; createdAt := "2024-05-01T10:00:01.000Z" |} in
  let e1 := {| id := 1; tagId := JStr "tag-1"; source := JStr "dock";
               type := JStr "alert"; createdAt := "2024-05-01T10:00:00.000Z" |} in
  trendEvents getTime_sample [e3; e2; e1] = [e1; e2; e3].
Proof.
  cbv zeta. apply (trendEvents_newest getTime_sample).
  repeat constructor; vm_compute; reflexivity.
Defined.

Lemma insert_by_time_first g a l :
  Forall (time_le g a) l -> insert_by_time g a l = a :: l.
Proof.
  destruct 1 as [| b l Hb Hl]; simpl; [reflexivity |].
  rewrite (compare_le_of_time_le g a b Hb). reflexivity.
Qed.

Lemma sort_by_time_id g l :
  StronglySorted (time_le g) l -> sort_by_time g l = l.
Proof.
  induction 1 as [| a l Hs IH Ha]; simpl; [reflexivity |].
  rewrite IH. apply insert_by_time_first. exact Ha.
Qed.

(** X16. The sort moves nothing in a list that is already in order of time, ties
    included, so the trend is then the last 12 elements of the list as it
    came.  For a newest-first list of events that all carry one and the same
    timestamp these are the 12 oldest: a newer event is left out. *)
Theorem trendEvents_ties g evs :
  StronglySorted (time_le g) evs ->
  trendEvents g evs = slice_last 12 evs.
Proof.
  intros H. unfold trendEvents. rewrite (sort_by_time_id g evs H). reflexivity.
Qed.

Lemma trendEvents_ties_witness :
  let ev := fun n => {| id := n; tagId := JStr "tag-1"; source := JStr "gate";
                        type := JStr "alert";
                        createdAt := "2024-05-01T10:00:00.000Z" |} in
  trendEvents getTime_sample (ev <$> [13; 12; 11; 10; 9; 8; 7; 6; 5; 4; 3; 2; 1])
  = ev <$> [12; 11; 10; 9; 8; 7; 6; 5; 4; 3; 2; 1].
Proof.
  cbv zeta.
  assert (H : StronglySorted (time_le getTime_sample)
                ((fun n => {| id := n; tagId := JStr "tag-1"; source := JStr "gate";
                              type := JStr "alert";
                              createdAt := "2024-05-01T10:00:00.000Z" |})
                   <$> [13; 12; 11; 10; 9; 8; 7; 6; 5; 4; 3; 2; 1]))
    by (repeat constructor; vm_compute; discriminate).
  exact (trendEvents_ties getTime_sample _ H).
Defined.

(* ===================================================================== *)
(** ** The dashboard: loading and submitting *)
(* ===================================================================== *)

(** X17. Whatever the network does, [loadData] leaves the server and the form
    alone and ends with the fetching flag down.  When both replies arrive
    the component shows the stored events and the stats computed from the
    same events, and no error; when either is missing it keeps the events
    and stats it had and shows the load error. *)
Theorem loadData_outcome d_events d_stats u srv :
  let w := loadData d_events d_stats (u, srv) in
  snd w = srv
  /\ ui_isFetching (fst w) = false
  /\ ui_tagId (fst w) = ui_tagId u
  /\ ui_source (fst w) = ui_source u
  /\ ui_type (fst w) = ui_type u
  /\ ui_loading (fst w) = ui_loading u
  /\ match d_events, d_stats with
     | Delivered, Delivered =>
         ui_events (fst w) = events srv
         /\ ui_stats (fst w) = Some (computeStats (events srv))
         /\ ui_error (fst w) = None
     | _, _ =>
         ui_events (fst w) = ui_events u
         /\ ui_stats (fst w) = ui_stats u
         /\ ui_error (fst w) = Some "Could not load data from server."
     end.
Proof.
  destruct d_events, d_stats; cbv zeta; unfold loadData, fetch;
    rewrite ?get_events_eq, ?get_stats_eq; simpl; repeat split; reflexivity.
Qed.

Lemma accepted_form_body u : accepted (form_body u) = form_filled u.
Proof. reflexivity. Qed.

(** [handleSubmit] in one equation. *)
Lemma handleSubmit_eq now d_post d_events d_stats u srv :
  handleSubmit now d_post d_events d_stats (u, srv) =
  if form_filled u then
    let posted := {| events := event_of now (form_body u) (nextId srv) :: events srv;
                     nextId := nextId srv + 1 |} in
    let failed := setLoading false
                    (setError (Some "Could not save event.")
                       (setError None (setLoading true u))) in
    match d_post with
    | NotSent => (failed, srv)
    | ReplyLost => (failed, posted)
    | Delivered =>
        let w := loadData d_events d_stats
                   (setType "check-in"
                      (setSource "" (setTagId "" (setError None (setLoading true u)))),
                    posted) in
        (setLoading false (fst w), snd w)
    end
  else (u, srv).
Proof.
  unfold handleSubmit, form_filled.
  destruct (to_boolean (JStr (ui_tagId u))) eqn:Ht; [| reflexivity].
  destruct (to_boolean (JStr (ui_source u))) eqn:Hs; [| reflexivity].
  destruct (to_boolean (JStr (ui_type u))) eqn:Hy; [| reflexivity].
  assert (Hb : accepted (form_body u) = true).
  { change (to_boolean (JStr (ui_tagId u)) && to_boolean (JStr (ui_source u))
            && to_boolean (JStr (ui_type u)) = true).
    rewrite Ht, Hs, Hy. reflexivity. }
  pose proof (post_events_eq now (form_body u) srv) as Hpost.
  rewrite Hb in Hpost. unfold form_body in Hpost.
  destruct d_post; unfold fetch, handle; rewrite ?Hpost; cbn -[loadData];
    try reflexivity.
  destruct (loadData _ _ _). reflexivity.
Qed.

(** X18. The guard of the form is the guard of the server on what the form
    sends.  A form with a blank field sends nothing and changes nothing.
    A filled form always ends with the saving flag down; it shows the save
    error exactly when the reply to the create did not arrive; and the
    server has the new event exactly when the create reached it, also when
    only the reply was lost. *)
Theorem handleSubmit_guard now d_post d_events d_stats u srv :
  let w := handleSubmit now d_post d_events d_stats (u, srv) in
  accepted (form_body u) = form_filled u
  /\ (form_filled u = false -> w = (u, srv))
  /\ (form_filled u = true ->
      ui_loading (fst w) = false
      /\ (ui_error (fst w) = Some "Could not save event." <-> d_post <> Delivered)
      /\ snd w = match d_post with
                 | NotSent => srv
                 | _ => {| events := event_of now (form_body u) (nextId srv)
                                     :: events srv;
                           nextId := nextId srv + 1 |}
                 end).
Proof.
  cbv zeta. rewrite handleSubmit_eq.
  split; [reflexivity |]. split; intros ->; [reflexivity |].
  cbv zeta.
  destruct d_post; cbn -[loadData].
  - repeat split; congruence.
  - repeat split; congruence.
  - split; [reflexivity |]. split.
    + split; [| congruence]. intros E. exfalso.
      destruct d_events, d_stats; cbn in E; discriminate E.
    + destruct d_events, d_stats; reflexivity.
Qed.

(** X19. With a network that delivers, submitting a filled form creates one
    event with the id the server had next and the values of the form, and
    the component ends showing exactly the store of the server: the new
    event first, the stats of the same events, the form cleared and the
    type back on check-in, both flags down and no error. *)
Theorem handleSubmit_success now u srv :
  form_filled u = true ->
  let w := handleSubmit now Delivered Delivered Delivered (u, srv) in
  let e := event_of now (form_body u) (nextId srv) in
  snd w = {| events := e :: events srv; nextId := nextId srv + 1 |}
  /\ fst w = {| ui_tagId := ""; ui_source := ""; ui_type := "check-in";
               ui_events := e :: events srv;
               ui_stats := Some (computeStats (e :: events srv));
               ui_loading := false; ui_isFetching := false;
               ui_error := None |}.
Proof.
  intros Hf. cbv zeta. rewrite handleSubmit_eq, Hf. split; reflexivity.
Qed.

Lemma handleSubmit_success_witness :
  let u := setSource "gate" (setTagId "tag-1" UI_initial) in
  let w := handleSubmit "2024-05-01T10:00:00.000Z" Delivered Delivered Delivered
             (u, initial) in
  let e := {| id := 1; tagId := JStr "tag-1"; source := JStr "gate";
              type := JStr "check-in";
              createdAt := "2024-05-01T10:00:00.000Z" |} in
  snd w = {| events := [e]; nextId := 2 |}
  /\ fst w = {| ui_tagId := ""; ui_source := ""; ui_type := "check-in";
               ui_events := [e];
               ui_stats := Some (computeStats [e]);
               ui_loading := false; ui_isFetching := false;
               ui_error := None |}.
Proof.
  cbv zeta.
  exact (handleSubmit_success "2024-05-01T10:00:00.000Z"
           (setSource "gate" (setTagId "tag-1" UI_initial)) initial eq_refl).
Defined.

(** X20. A create is not idempotent and the form does not know whether it
    arrived.  When the reply to a create is lost, the server has stored the
    event, but the component shows the save error and keeps the form, the
    list and the stats as they were; submitting the kept form again stores
    a second event with the same values under the next id. *)
Theorem handleSubmit_lost_reply now now' d_events d_stats u srv :
  form_filled u = true ->
  let w1 := handleSubmit now ReplyLost d_events d_stats (u, srv) in
  let w2 := handleSubmit now' Delivered Delivered Delivered w1 in
  let e1 := event_of now (form_body u) (nextId srv) in
  let e2 := event_of now' (form_body u) (nextId srv + 1) in
  events (snd w1) = e1 :: events srv
  /\ ui_error (fst w1) = Some "Could not save event."
  /\ form_body (fst w1) = form_body u
  /\ ui_events (fst w1) = ui_events u
  /\ ui_stats (fst w1) = ui_stats u
  /\ events (snd w2) = e2 :: e1 :: events srv
  /\ ui_events (fst w2) = e2 :: e1 :: events srv
  /\ ui_error (fst w2) = None.
Proof.
  intros Hf. cbv zeta. rewrite handleSubmit_eq, Hf. cbv zeta.
  rewrite handleSubmit_eq.
  change (form_filled
            (setLoading false
               (setError (Some "Could not save event.")
                  (setError None (setLoading true u)))))
    with (form_filled u).
  rewrite Hf. repeat split; reflexivity.
Qed.

Lemma handleSubmit_lost_reply_witness :
  let u := setSource "gate" (setTagId "tag-1" UI_initial) in
  let w1 := handleSubmit "2024-05-01T10:00:00.000Z" ReplyLost NotSent NotSent
              (u, initial) in
  let w2 := handleSubmit "2024-05-01T10:00:01.000Z" Delivered Delivered Delivered w1 in
  let e1 := {| id := 1; tagId := JStr "tag-1"; source := JStr "gate";
               type := JStr "check-in";
               createdAt := "2024-05-01T10:00:00.000Z" |} in
  let e2 := {| id := 2; tagId := JStr "tag-1"; source := JStr "gate";
               type := JStr "check-in";
               createdAt := "2024-05-01T10:00:01.000Z" |} in
  events (snd w1) = [e1]
  /\ ui_error (fst w1) = Some "Could not save event."
  /\ form_body (fst w1) = form_body u
  /\ ui_events (fst w1) = []
  /\ ui_stats (fst w1) = None
  /\ events (snd w2) = [e2; e1]
  /\ ui_events (fst w2) = [e2; e1]
  /\ ui_error (fst w2) = None.
Proof.
  cbv zeta.
  exact (handleSubmit_lost_reply "2024-05-01T10:00:00.000Z"
           "2024-05-01T10:00:01.000Z" NotSent NotSent
           (setSource "gate" (setTagId "tag-1" UI_initial)) initial eq_refl).
Defined.
